(** * The Helm wrapper of pkg/executables/helm.go

    A shallow embedding of the [Helm] type, its options and its twelve
    operations, together with the properties the specification states
    about the argument lists, the standard-input payloads, the environment
    and the errors of the [helm] invocations.

    Conventions of the embedding.
    - A Go [string] and a [[]byte] are byte sequences: [string].
      A nil slice is the empty list / the empty string.
    - A Go [error] is an [option error], [None] being [nil]; a Go result
      pair [(x, err)] is a pair.
    - A [map[string]string] is a [gmap string string].
    - A method with a pointer receiver is a computation in the monad [M]:
      it threads the receiver ([self]) and the list of external commands
      run so far ([trace]).  A [HelmOpt] mutates the [Helm] it is given: it
      is a function on [Helm].
    - Calls to the logger change nothing that is modelled and are left out. *)

From Stdlib Require Import Ascii.
From stdpp Require Import base option list strings gmap fin_maps.

Local Open Scope string_scope.
Local Open Scope list_scope.
Local Open Scope stdpp_scope.

(** ** Errors *)

(** A Go error value: a plain message ([errors.New], [fmt.Errorf] without
    [%w]) or a message wrapping a cause ([fmt.Errorf] with [%w]). *)
Inductive error : Type :=
| errorString (s : string)
| wrapError (msg : string) (err : error).

(** [err.Error()] *)
Definition Error (e : error) : string :=
  match e with
  | errorString s => s
  | wrapError msg _ => msg
  end.

(** [errors.Unwrap(err)] *)
Definition Unwrap (e : error) : option error :=
  match e with
  | errorString _ => None
  | wrapError _ err => Some err
  end.

(** [fmt.Errorf(prefix + "%v", err)]: the verb prints [err.Error()]. *)
Definition Errorf_v (prefix : string) (err : error) : error :=
  errorString (prefix +:+ Error err).

(** [fmt.Errorf(prefix + "%w", err)]: same text, and the cause is kept. *)
Definition Errorf_w (prefix : string) (err : error) : error :=
  wrapError (prefix +:+ Error err) err.

(** ** Collaborators that live outside helm.go *)

Class Collaborators : Type := {
  (** [context.Context] *)
  context_Context : Type;
  (** the [interface{}] handed to [Template] as values *)
  Values : Type;
  (** [registrymirror.RegistryMirror] *)
  RegistryMirror : Type;
  (** the rewrite a configured mirror applies to a reference *)
  Rewrite : RegistryMirror → string → string;
  (** [yaml.Marshal] of sigs.k8s.io/yaml *)
  yaml_Marshal : Values → string * option error
}.

(** ** Constants *)

Definition helmPath : string := "helm".
Definition insecureSkipVerifyFlag : string := "--insecure-skip-tls-verify".

(** ** strings.FieldsFunc *)

(** The loop of Go's [strings.FieldsFunc]: [field] is the field being read
    ([start >= 0] in Go), closed and emitted when a separator or the end of
    the string is met.  The string is read byte by byte: the only predicate
    used below is [c == '\n'], the byte 10 never occurs inside a multi-byte
    UTF-8 sequence, and an invalid byte is read as one rune that is not a
    newline, so reading runes or bytes cuts at the same places. *)
Fixpoint fieldsLoop (f : ascii → bool) (s : string) (field : option string) : list string :=
  match s with
  | EmptyString =>
      match field with
      | Some w => [w]
      | None => []
      end
  | String c rest =>
      if f c then
        match field with
        | Some w => w :: fieldsLoop f rest None
        | None => fieldsLoop f rest None
        end
      else
        match field with
        | Some w => fieldsLoop f rest (Some (w +:+ String c ""))
        | None => fieldsLoop f rest (Some (String c ""))
        end
  end.

Definition FieldsFunc (s : string) (f : ascii → bool) : list string :=
  fieldsLoop f s None.

Definition newline : ascii := ascii_of_nat 10.

(** The specification's reading of the same step: cut the text at every
    newline (n newlines give n+1 segments, some possibly empty) and drop the
    empty segments. *)
Fixpoint split_on_newlines (s : string) : list string :=
  match s with
  | EmptyString => [""]
  | String c rest =>
      if bool_decide (c = newline) then "" :: split_on_newlines rest
      else match split_on_newlines rest with
           | seg :: segs => String c seg :: segs
           | [] => [String c ""]
           end
  end.

Definition nonempty_lines (s : string) : list string :=
  filter (λ seg, seg ≠ "") (split_on_newlines s).

Section Helm.
Context `{C : Collaborators}.

(** ** The external-command runner *)

(** Modelled from the spec: the [Command] builder of the package's
    executable runner (program arguments, optional standard-input bytes and
    environment mapping), which is not in helm.go. *)
Record Command : Type := mkCommand {
  ctx : context_Context;
  args : list string;
  stdIn : string;
  envVars : gmap string string
}.

(** Modelled from the spec: the [Executable] runner; given the commands
    already run and the command to run, it answers with the captured
    standard output or an error. *)
Definition Executable : Type := list Command → Command → string * option error.

Definition newCommand (c : context_Context) (params : list string) : Command :=
  {| ctx := c; args := params; stdIn := ""; envVars := ∅ |}.

Definition WithStdIn (stdin : string) (c : Command) : Command :=
  {| ctx := ctx c; args := args c; stdIn := stdin; envVars := envVars c |}.

Definition WithEnvVars (e : gmap string string) (c : Command) : Command :=
  {| ctx := ctx c; args := args c; stdIn := stdIn c; envVars := e |}.

(** ** The Helm type and its options *)

Record Helm : Type := mkHelm {
  executable : Executable;
  registryMirror : option RegistryMirror;
  env : gmap string string;
  insecure : bool
}.

Definition HelmOpt : Type := Helm → Helm.

Definition WithRegistryMirror (mirror : option RegistryMirror) : HelmOpt :=
  λ h, {| executable := executable h; registryMirror := mirror;
          env := env h; insecure := insecure h |}.

Definition WithInsecure : HelmOpt :=
  λ h, {| executable := executable h; registryMirror := registryMirror h;
          env := env h; insecure := true |}.

(** [for k, v := range env { h.env[k] = v }] *)
Definition WithEnv (e : gmap string string) : HelmOpt :=
  λ h, {| executable := executable h; registryMirror := registryMirror h;
          env := map_fold (λ k v acc, <[k:=v]> acc) (env h) e;
          insecure := insecure h |}.

Definition defaultEnv : gmap string string := {[ "HELM_EXPERIMENTAL_OCI" := "1" ]}.

Definition NewHelm (exe : Executable) (opts : list HelmOpt) : Helm :=
  foldl (λ h o, o h)
        {| executable := exe; registryMirror := None;
           env := defaultEnv; insecure := false |}
        opts.

(** ** Helpers of the receiver *)

Definition addInsecureFlagIfProvided (h : Helm) (params : list string) : list string :=
  if insecure h then params ++ [insecureSkipVerifyFlag] else params.

(** Modelled from the spec: [ReplaceRegistry] of the registry mirror, which
    is not in helm.go; with no mirror configured the reference is used as it
    is, with a mirror it is the mirror's rewrite of the reference. *)
Definition ReplaceRegistry (r : option RegistryMirror) (originalURL : string) : string :=
  match r with
  | None => originalURL
  | Some m => Rewrite m originalURL
  end.

Definition url (h : Helm) (originalURL : string) : string :=
  ReplaceRegistry (registryMirror h) originalURL.

(** [valueArgs := []string{}] then, for each value in order,
    [valueArgs = append(valueArgs, "--set", value)]. *)
Definition GetHelmValueArgs (values : list string) : list string :=
  foldl (λ valueArgs value, valueArgs ++ ["--set"; value]) [] values.

(** ** The monad of the operations *)

Record State : Type := mkState {
  self : Helm;            (* the receiver [h] *)
  trace : list Command    (* the external commands run so far, oldest first *)
}.

Definition M (A : Type) : Type := State → A * State.

Definition ret {A} (a : A) : M A := λ st, (a, st).

Definition bind {A B} (m : M A) (k : A → M B) : M B :=
  λ st, let (a, st') := m st in k a st'.

Notation "x <~ m ; k" := (bind m (λ x, k))
  (at level 20, m at level 100, k at level 200, only parsing).
Notation "' p <~ m ; k" := (bind m (λ 'p, k))
  (at level 20, p pattern, m at level 100, k at level 200, only parsing).

(** reading the receiver *)
Definition this : M Helm := λ st, (self st, st).

(** [opt(h)]: the option mutates the receiver *)
Definition applyOpt (opt : HelmOpt) : M unit :=
  λ st, (tt, {| self := opt (self st); trace := trace st |}).

(** [for _, opt := range opts { opt(h) }] *)
Fixpoint applyAll (opts : list HelmOpt) : M unit :=
  match opts with
  | [] => ret tt
  | opt :: rest => bind (applyOpt opt) (λ _, applyAll rest)
  end.

(** [h.executable.Command(ctx, params...)] builds the command,
    [.Run()] hands it to the runner of the receiver. *)
Definition Run (c : Command) : M (string * option error) :=
  λ st, (executable (self st) (trace st) c,
         {| self := self st; trace := trace st ++ [c] |}).

(** ** The operations *)

Definition Template (c : context_Context) (ociURI version namespace : string)
    (values : Values) (kubeVersion : string) : M (string * option error) :=
  let '(valuesYaml, err) := yaml_Marshal values in
  match err with
  | Some err =>
      ret ("", Some (Errorf_v "failed marshalling values for helm template: " err))
  | None =>
      h <~ this ;
      let params := ["template"; url h ociURI; "--version"; version;
                     "--namespace"; namespace; "--kube-version"; kubeVersion] in
      let params := addInsecureFlagIfProvided h params in
      let params := params ++ ["-f"; "-"] in
      '(result, err) <~ Run (WithEnvVars (env h) (WithStdIn valuesYaml (newCommand c params))) ;
      match err with
      | Some err => ret ("", Some err)
      | None => ret (result, None)
      end
  end.

Definition PullChart (c : context_Context) (ociURI version : string) : M (option error) :=
  h <~ this ;
  let params := ["pull"; url h ociURI; "--version"; version] in
  let params := addInsecureFlagIfProvided h params in
  '(out, err) <~ Run (WithEnvVars (env h) (newCommand c params)) ;
  ret err.

Definition ShowValues (c : context_Context) (ociURI version : string)
    : M (string * option error) :=
  h <~ this ;
  let params := ["show"; "values"; url h ociURI; "--version"; version] in
  '(out, err) <~ Run (WithEnvVars (env h) (newCommand c params)) ;
  ret (out, err).

Definition PushChart (c : context_Context) (chart registry : string) : M (option error) :=
  h <~ this ;
  let params := ["push"; chart; registry] in
  let params := addInsecureFlagIfProvided h params in
  '(out, err) <~ Run (WithEnvVars (env h) (newCommand c params)) ;
  ret err.

Definition RegistryLogin (c : context_Context) (registry username password : string)
    : M (option error) :=
  h <~ this ;
  let params := ["registry"; "login"; registry; "--username"; username; "--password-stdin"] in
  let params := if insecure h then params ++ ["--insecure"] else params in
  '(out, err) <~ Run (WithStdIn password (WithEnvVars (env h) (newCommand c params))) ;
  ret err.

Definition SaveChart (c : context_Context) (ociURI version folder : string) : M (option error) :=
  h <~ this ;
  let params := ["pull"; url h ociURI; "--version"; version; "--destination"; folder] in
  let params := addInsecureFlagIfProvided h params in
  '(out, err) <~ Run (WithEnvVars (env h) (newCommand c params)) ;
  ret err.

Definition InstallChartFromName (c : context_Context) (ociURI kubeConfig name version : string)
    : M (option error) :=
  h <~ this ;
  let params := ["upgrade"; "--install"; name; ociURI; "--version"; version;
                 "--kubeconfig"; kubeConfig] in
  let params := addInsecureFlagIfProvided h params in
  '(out, err) <~ Run (WithEnvVars (env h) (newCommand c params)) ;
  ret err.

Definition InstallChart (c : context_Context)
    (chart ociURI version kubeconfigFilePath namespace valueFilePath : string)
    (skipCRDs : bool) (values : list string) : M (option error) :=
  h <~ this ;
  let valueArgs := GetHelmValueArgs values in
  let params := ["upgrade"; "--install"; chart; ociURI; "--version"; version] in
  let params := if skipCRDs then params ++ ["--skip-crds"] else params in
  let params := params ++ valueArgs in
  let params := if bool_decide (kubeconfigFilePath ≠ "")
                then params ++ ["--kubeconfig"; kubeconfigFilePath] else params in
  let params := if bool_decide (0 < String.length namespace)
                then params ++ ["--create-namespace"; "--namespace"; namespace] else params in
  let params := if bool_decide (valueFilePath ≠ "")
                then params ++ ["-f"; valueFilePath] else params in
  let params := addInsecureFlagIfProvided h params in
  '(out, err) <~ Run (WithEnvVars (env h) (newCommand c params)) ;
  ret err.

Definition InstallChartWithValuesFile (c : context_Context)
    (chart ociURI version kubeconfigFilePath valuesFilePath : string) : M (option error) :=
  h <~ this ;
  let params := ["upgrade"; "--install"; chart; ociURI; "--version"; version;
                 "--values"; valuesFilePath; "--kubeconfig"; kubeconfigFilePath; "--wait"] in
  let params := addInsecureFlagIfProvided h params in
  '(out, err) <~ Run (WithEnvVars (env h) (newCommand c params)) ;
  ret err.

Definition Delete (c : context_Context) (kubeconfigFilePath installName namespace : string)
    : M (option error) :=
  h <~ this ;
  let params := ["delete"; installName; "--kubeconfig"; kubeconfigFilePath] in
  let params := if bool_decide (namespace ≠ "")
                then params ++ ["--namespace"; namespace] else params in
  let params := addInsecureFlagIfProvided h params in
  '(out, err) <~ Run (WithEnvVars (env h) (newCommand c params)) ;
  match err with
  | Some err => ret (Some (Errorf_w "deleting helm installation " err))
  | None => ret None
  end.

Definition ListCharts (c : context_Context) (kubeconfigFilePath : string)
    : M (list string * option error) :=
  h <~ this ;
  let params := ["list"; "-q"; "--kubeconfig"; kubeconfigFilePath] in
  '(out, err) <~ Run (WithEnvVars (env h) (newCommand c params)) ;
  match err with
  | Some err => ret ([], Some err)
  | None =>
      let charts := FieldsFunc out (λ c, bool_decide (c = newline)) in
      ret (charts, None)
  end.

Definition UpgradeChartWithValuesFile (c : context_Context)
    (chart ociURI version kubeconfigFilePath valuesFilePath : string)
    (opts : list HelmOpt) : M (option error) :=
  let params := ["upgrade"; chart; ociURI; "--version"; version;
                 "--values"; valuesFilePath; "--kubeconfig"; kubeconfigFilePath;
                 "--wait"] in
  bind (applyAll opts) (λ _,
  h <~ this ;
  let params := addInsecureFlagIfProvided h params in
  '(out, err) <~ Run (WithEnvVars (env h) (newCommand c params)) ;
  ret err).

(** ** Observing a call *)

(** The receiver after a call, and the commands the call handed to the
    runner (the part of the trace it added). *)
Definition receiver_after {A} (m : M A) (st : State) : Helm := self (m st).2.

Definition commands_of {A} (m : M A) (st : State) : list Command :=
  drop (length (trace st)) (trace (m st).2).

Definition result_of {A} (m : M A) (st : State) : A := (m st).1.

(** A call of any of the twelve operations, with its arguments. *)
Inductive Call : Type :=
| CallTemplate (ociURI version namespace : string) (values : Values) (kubeVersion : string)
| CallPullChart (ociURI version : string)
| CallShowValues (ociURI version : string)
| CallPushChart (chart registry : string)
| CallRegistryLogin (registry username password : string)
| CallSaveChart (ociURI version folder : string)
| CallInstallChartFromName (ociURI kubeConfig name version : string)
| CallInstallChart (chart ociURI version kubeconfigFilePath namespace valueFilePath : string)
    (skipCRDs : bool) (values : list string)
| CallInstallChartWithValuesFile (chart ociURI version kubeconfigFilePath valuesFilePath : string)
| CallDelete (kubeconfigFilePath installName namespace : string)
| CallListCharts (kubeconfigFilePath : string)
| CallUpgradeChartWithValuesFile (chart ociURI version kubeconfigFilePath valuesFilePath : string)
    (opts : list HelmOpt).

(** Making the call and keeping only its error. *)
Definition perform (c : context_Context) (call : Call) : M (option error) :=
  match call with
  | CallTemplate ociURI version namespace values kubeVersion =>
      '(out, err) <~ Template c ociURI version namespace values kubeVersion ; ret err
  | CallPullChart ociURI version => PullChart c ociURI version
  | CallShowValues ociURI version =>
      '(out, err) <~ ShowValues c ociURI version ; ret err
  | CallPushChart chart registry => PushChart c chart registry
  | CallRegistryLogin registry username password =>
      RegistryLogin c registry username password
  | CallSaveChart ociURI version folder => SaveChart c ociURI version folder
  | CallInstallChartFromName ociURI kubeConfig name version =>
      InstallChartFromName c ociURI kubeConfig name version
  | CallInstallChart chart ociURI version kubeconfigFilePath namespace valueFilePath
      skipCRDs values =>
      InstallChart c chart ociURI version kubeconfigFilePath namespace valueFilePath
        skipCRDs values
  | CallInstallChartWithValuesFile chart ociURI version kubeconfigFilePath valuesFilePath =>
      InstallChartWithValuesFile c chart ociURI version kubeconfigFilePath valuesFilePath
  | CallDelete kubeconfigFilePath installName namespace =>
      Delete c kubeconfigFilePath installName namespace
  | CallListCharts kubeconfigFilePath =>
      '(out, err) <~ ListCharts c kubeconfigFilePath ; ret err
  | CallUpgradeChartWithValuesFile chart ociURI version kubeconfigFilePath valuesFilePath
      opts =>
      UpgradeChartWithValuesFile c chart ociURI version kubeconfigFilePath valuesFilePath
        opts
  end.


(** The mirror's rewrite of the chart reference, for the operations that
    ask for one. *)
Definition rewritten (h : Helm) (call : Call) : list string :=
  match call with
  | CallTemplate ociURI _ _ _ _ => [url h ociURI]
  | CallPullChart ociURI _ => [url h ociURI]
  | CallShowValues ociURI _ => [url h ociURI]
  | CallSaveChart ociURI _ _ => [url h ociURI]
  | _ => []
  end.


(** The options a call applies to the receiver. *)
Definition options_of (call : Call) : list HelmOpt :=
  match call with
  | CallUpgradeChartWithValuesFile _ _ _ _ _ opts => opts
  | _ => []
  end.

(** Calls made one after the other on the same receiver. *)
Fixpoint performAll (c : context_Context) (calls : list Call) : M unit :=
  match calls with
  | [] => ret tt
  | call :: rest => bind (perform c call) (λ _, performAll c rest)
  end.

End Helm.

Arguments Command {C}.
Arguments Helm {C}.
Arguments State {C}.
Arguments Call {C}.

(** ** A concrete setting, used by the examples *)

(** Runners that give the same answer to every command. *)
Definition answering `{C : Collaborators} (out : string) (err : option error)
    : Executable :=
  λ _ _, (out, err).

(** Values are either a text that serialises to itself or a payload that
    the serialiser refuses. *)
Definition sample_Marshal (v : option string) : string * option error :=
  match v with
  | Some text => (text, None)
  | None => ("", Some (errorString "json: unsupported type: chan int"))
  end.

(** A mirror is the address of a registry and puts a reference under it. *)
Definition sample : Collaborators := {|
  context_Context := unit;
  Values := option string;
  RegistryMirror := string;
  Rewrite := λ mirror ref, mirror +:+ "/" +:+ ref;
  yaml_Marshal := sample_Marshal
|}.

(** The text a, b, an empty line and c, each line ended by a newline. *)
Definition sample_listing : string :=
  String "a" (String newline (String "b" (String newline (String newline
    (String "c" (String newline EmptyString)))))).

(** ** Vocabulary of the properties *)

(** The value of key [k] after the maps [envs] were merged, in order, into
    a mapping where [k] had the value [init]: the last map that has [k]
    decides, and with none the value stays. *)
Definition merged_value (init : option string) (envs : list (gmap string string))
    (k : string) : option string :=
  foldl (λ acc e, match e !! k with Some v => Some v | None => acc end) init envs.

(** The tokens that switch certificate checks off. *)
Definition insecure_related (token : string) : bool :=
  bool_decide (token = "--insecure") || bool_decide (token = insecureSkipVerifyFlag).

(** The three options helm.go provides, as data, and the [HelmOpt] each
    one stands for. *)
Inductive ProvidedOpt `{C : Collaborators} : Type :=
| OptRegistryMirror (mirror : option RegistryMirror)
| OptInsecure
| OptEnv (e : gmap string string).

Definition toHelmOpt `{C : Collaborators} (o : ProvidedOpt) : HelmOpt :=
  match o with
  | OptRegistryMirror mirror => WithRegistryMirror mirror
  | OptInsecure => WithInsecure
  | OptEnv e => WithEnv e
  end.

Definition sets_insecure `{C : Collaborators} (o : ProvidedOpt) : bool :=
  match o with
  | OptInsecure => true
  | _ => false
  end.

(** The mirror given by the last WithRegistryMirror of a list of options,
    [init] when there is none. *)
Definition last_mirror `{C : Collaborators} (init : option RegistryMirror)
    (os : list ProvidedOpt) : option RegistryMirror :=
  foldl (λ acc o, match o with OptRegistryMirror mirror => mirror | _ => acc end) init os.

(** The maps given to the WithEnv options of a list, in order. *)
Definition env_maps `{C : Collaborators} (os : list ProvidedOpt)
    : list (gmap string string) :=
  flat_map (λ o, match o with OptEnv e => [e] | _ => [] end) os.

(** Template called with values that do not serialise. *)
Definition marshal_fails `{C : Collaborators} (call : Call) : bool :=
  match call with
  | CallTemplate _ _ _ values _ =>
      match (yaml_Marshal values).2 with
      | Some _ => true
      | None => false
      end
  | _ => false
  end.

Definition is_Delete `{C : Collaborators} (call : Call) : bool :=
  match call with
  | CallDelete _ _ _ => true
  | _ => false
  end.

(** A text has a newline in it. *)
Fixpoint has_newline (s : string) : bool :=
  match s with
  | EmptyString => false
  | String a rest => bool_decide (a = newline) || has_newline rest
  end.

(** The text that lists [names] one per line, each line ended by a
    newline. *)
Fixpoint one_per_line (names : list string) : string :=
  match names with
  | [] => ""
  | name :: rest => name +:+ String newline (one_per_line rest)
  end.

(** * Properties *)

(** ** Running an operation *)

Lemma drop_trace {A} (l k : list A) : drop (length l) (l ++ k) = k.
Proof. by rewrite drop_app_length. Qed.

Ltac unfold_op :=
  unfold commands_of, result_of, receiver_after, perform,
    Template, PullChart, ShowValues, PushChart, RegistryLogin, SaveChart,
    InstallChartFromName, InstallChart, InstallChartWithValuesFile, Delete,
    ListCharts, UpgradeChartWithValuesFile, bind, this, Run, ret;
  cbn [fst snd self trace].

(** For goals about the commands run: the runner's answer does not matter. *)
Ltac run_op :=
  unfold_op;
  repeat match goal with
         | |- context [executable ?h ?t ?c] =>
             let out := fresh "out" in
             let err := fresh "err" in
             destruct (executable h t c) as [out [err|]]
         end;
  cbn [fst snd self trace];
  rewrite ?drop_trace.

(** Closing a goal about an argument list by cases on the insecure flag. *)
Ltac by_flag :=
  cbn [args stdIn envVars WithEnvVars WithStdIn newCommand];
  unfold addInsecureFlagIfProvided;
  match goal with
  | |- context [insecure ?h] => destruct (insecure h)
  | _ => idtac
  end;
  reflexivity.

Example GetHelmValueArgs_two :
  GetHelmValueArgs ["a=1"; "b=2"] = ["--set"; "a=1"; "--set"; "b=2"].
Proof. reflexivity. Qed.

Example FieldsFunc_sample_listing :
  FieldsFunc sample_listing (λ a, bool_decide (a = newline)) = ["a"; "b"; "c"].
Proof. reflexivity. Qed.

Example split_sample_listing :
  split_on_newlines sample_listing = ["a"; "b"; ""; "c"; ""].
Proof. reflexivity. Qed.

Lemma GetHelmValueArgs_flat (values : list string) :
  GetHelmValueArgs values = flat_map (λ value, ["--set"; value]) values.
Proof.
  unfold GetHelmValueArgs.
  enough (∀ acc, foldl (λ valueArgs value, valueArgs ++ ["--set"; value]) acc values
                 = acc ++ flat_map (λ value, ["--set"; value]) values) as Hgen
    by apply (Hgen []).
  induction values as [|v vs IH]; intros acc; simpl.
  - by rewrite app_nil_r.
  - rewrite IH. by rewrite <- app_assoc.
Qed.

(** C3: on a Helm built with no option, installing release "r" from chart
    "oci://x", version "1.0", namespace "ns", with no kube-config path, no
    values file, CRDs kept and no inline override, runs one command whose
    tokens are exactly upgrade --install r oci://x --version 1.0
    --create-namespace --namespace ns; the skip-verification flag is not
    among them. *)
Theorem InstallChart_default_tokens `{C : Collaborators}
    (exe : Executable) (c : context_Context) (tr : list Command) :
  let tokens := ["upgrade"; "--install"; "r"; "oci://x"; "--version"; "1.0";
                 "--create-namespace"; "--namespace"; "ns"] in
  args <$> commands_of (InstallChart c "r" "oci://x" "1.0" "" "ns" "" false [])
             {| self := NewHelm exe []; trace := tr |}
  = [tokens]
  ∧ insecureSkipVerifyFlag ∉ tokens.
Proof.
  split.
  - run_op; reflexivity.
  - unfold insecureSkipVerifyFlag. rewrite !elem_of_cons, elem_of_nil.
    intros H. repeat destruct H as [H|H]; try discriminate H. exact H.
Qed.

(** C4: when the values payload does not serialise, Template returns the
    marshalling error (its text is the fixed prefix followed by the text of
    the serialiser's error), returns no manifest bytes, and hands no command
    to the runner: the state is left as it was. *)
Theorem Template_marshal_failure `{C : Collaborators}
    (c : context_Context) (ociURI version namespace : string) (values : Values)
    (kubeVersion : string) (st : State) (partial : string) (e : error) :
  yaml_Marshal values = (partial, Some e) →
  result_of (Template c ociURI version namespace values kubeVersion) st
  = ("", Some (errorString ("failed marshalling values for helm template: " +:+ Error e)))
  ∧ commands_of (Template c ociURI version namespace values kubeVersion) st = []
  ∧ (Template c ociURI version namespace values kubeVersion st).2 = st.
Proof.
  intros Hm. unfold commands_of, result_of, Template. rewrite Hm.
  unfold ret, Errorf_v. cbn [fst snd]. by rewrite drop_all.
Qed.

Lemma Template_marshal_failure_witness :
  @yaml_Marshal sample None = ("", Some (errorString "json: unsupported type: chan int"))
  ∧ commands_of (Template (C := sample) tt "oci://x" "1.0" "ns" None "1.27")
      {| self := NewHelm (answering "" None) []; trace := [] |} = [].
Proof.
  split; [reflexivity|].
  apply (Template_marshal_failure (C := sample) tt "oci://x" "1.0" "ns" None "1.27"
           {| self := NewHelm (answering "" None) []; trace := [] |}
           "" (errorString "json: unsupported type: chan int")).
  reflexivity.
Defined.

(** Applying options one after the other folds them over the receiver and
    runs nothing. *)
Lemma applyAll_run `{C : Collaborators} (opts : list HelmOpt) (st : State) :
  applyAll opts st = (tt, {| self := foldl (λ h o, o h) (self st) opts; trace := trace st |}).
Proof.
  revert st. induction opts as [|o opts IH]; intros [h tr]; simpl.
  - reflexivity.
  - unfold bind, applyOpt. simpl. by rewrite IH.
Qed.

(** ** The chart reference and the registry mirror *)

(** C1 (amended): Template, PullChart, ShowValues and SaveChart put the
    mirror's rewrite of the chart reference in the argument list when a
    mirror is configured and the reference itself when none is;
    InstallChartFromName, InstallChart and UpgradeChartWithValuesFile put
    the reference in the list as it was given, mirror or not; PushChart
    passes its chart and its destination on as given. *)
Theorem reference_tokens `{C : Collaborators} (c : context_Context) (st : State) :
  let rewritten ref :=
    match registryMirror (self st) with
    | Some mirror => Rewrite mirror ref
    | None => ref
    end in
  (∀ ociURI version namespace values kubeVersion yaml,
     yaml_Marshal values = (yaml, None) →
     ∃ cmd, commands_of (Template c ociURI version namespace values kubeVersion) st = [cmd]
            ∧ take 2 (args cmd) = ["template"; rewritten ociURI])
  ∧ (∀ ociURI version,
     ∃ cmd, commands_of (PullChart c ociURI version) st = [cmd]
            ∧ take 2 (args cmd) = ["pull"; rewritten ociURI])
  ∧ (∀ ociURI version,
     ∃ cmd, commands_of (ShowValues c ociURI version) st = [cmd]
            ∧ take 3 (args cmd) = ["show"; "values"; rewritten ociURI])
  ∧ (∀ ociURI version folder,
     ∃ cmd, commands_of (SaveChart c ociURI version folder) st = [cmd]
            ∧ take 2 (args cmd) = ["pull"; rewritten ociURI])
  ∧ (∀ ociURI kubeConfig name version,
     ∃ cmd, commands_of (InstallChartFromName c ociURI kubeConfig name version) st = [cmd]
            ∧ take 4 (args cmd) = ["upgrade"; "--install"; name; ociURI])
  ∧ (∀ chart ociURI version kubeconfigFilePath namespace valueFilePath skipCRDs values,
     ∃ cmd, commands_of (InstallChart c chart ociURI version kubeconfigFilePath namespace
                           valueFilePath skipCRDs values) st = [cmd]
            ∧ take 4 (args cmd) = ["upgrade"; "--install"; chart; ociURI])
  ∧ (∀ chart ociURI version kubeconfigFilePath valuesFilePath opts,
     ∃ cmd, commands_of (UpgradeChartWithValuesFile c chart ociURI version
                           kubeconfigFilePath valuesFilePath opts) st = [cmd]
            ∧ take 3 (args cmd) = ["upgrade"; chart; ociURI])
  ∧ (∀ chart registry,
     ∃ cmd, commands_of (PushChart c chart registry) st = [cmd]
            ∧ take 3 (args cmd) = ["push"; chart; registry]).
Proof.
  intros rewritten.
  repeat split; intros.
  - unfold commands_of, Template. rewrite H.
    run_op; eexists; (split; [reflexivity|]); by_flag.
  - run_op; eexists; (split; [reflexivity|]); by_flag.
  - run_op; eexists; (split; [reflexivity|]); by_flag.
  - run_op; eexists; (split; [reflexivity|]); by_flag.
  - run_op; eexists; (split; [reflexivity|]); by_flag.
  - run_op; eexists; (split; [reflexivity|]);
      destruct skipCRDs; repeat case_bool_decide; by_flag.
  - unfold commands_of, UpgradeChartWithValuesFile, bind. rewrite applyAll_run.
    run_op; eexists; (split; [reflexivity|]); by_flag.
  - run_op; eexists; (split; [reflexivity|]); by_flag.
Qed.

Lemma reference_tokens_witness :
  let h := NewHelm (C := sample) (answering "" None)
             [WithRegistryMirror (C := sample) (Some "mirror.local")] in
  @yaml_Marshal sample (Some "a: 1") = ("a: 1", None)
  ∧ ∃ cmd, commands_of (Template (C := sample) tt "public.ecr.aws/x" "1.0" "ns"
                          (Some "a: 1") "1.27") {| self := h; trace := [] |} = [cmd]
           ∧ take 2 (args cmd) = ["template"; "mirror.local/public.ecr.aws/x"].
Proof.
  intros h. split; [reflexivity|].
  apply (proj1 (reference_tokens (C := sample) tt {| self := h; trace := [] |})
           "public.ecr.aws/x" "1.0" "ns" (Some "a: 1") "1.27" "a: 1").
  reflexivity.
Defined.

(** C1 as stated fails: with a mirror configured, InstallChart leaves the
    reference as it was given; the mirror's rewrite of it is nowhere in the
    argument list. *)
Lemma InstallChart_reference_not_rewritten :
  let h := NewHelm (C := sample) (answering "" None)
             [WithRegistryMirror (C := sample) (Some "mirror.local")] in
  let tokens := ["upgrade"; "--install"; "r"; "public.ecr.aws/x"; "--version"; "1.0";
                 "--create-namespace"; "--namespace"; "ns"] in
  registryMirror h = Some "mirror.local"
  ∧ args <$> commands_of (InstallChart (C := sample) tt "r" "public.ecr.aws/x" "1.0" ""
                            "ns" "" false []) {| self := h; trace := [] |}
    = [tokens]
  ∧ @Rewrite sample "mirror.local" "public.ecr.aws/x" = "mirror.local/public.ecr.aws/x"
  ∧ @Rewrite sample "mirror.local" "public.ecr.aws/x" ∉ tokens.
Proof.
  intros h tokens. repeat split.
  apply (bool_decide_unpack _). by vm_compute.
Qed.

(** ** The insecure flag *)

Lemma addInsecureFlag_set `{C : Collaborators} (h : Helm) (params : list string) :
  insecure h = true →
  addInsecureFlagIfProvided h params = params ++ [insecureSkipVerifyFlag].
Proof. intros Hi. unfold addInsecureFlagIfProvided. by rewrite Hi. Qed.


Lemma elem_of_GetHelmValueArgs (x : string) (values : list string) :
  x ∈ GetHelmValueArgs values → x = "--set" ∨ x ∈ values.
Proof.
  rewrite GetHelmValueArgs_flat.
  induction values as [|v vs IH]; simpl.
  - by rewrite elem_of_nil.
  - rewrite !elem_of_cons. intros [->|[->|Hin]]; auto.
    destruct (IH Hin); auto.
Qed.

(** What a call does to the receiver: it applies the options it was given,
    and only UpgradeChartWithValuesFile is given any. *)
Lemma perform_receiver `{C : Collaborators} (c : context_Context) (call : Call) (st : State) :
  receiver_after (perform c call) st = foldl (λ h o, o h) (self st) (options_of call).
Proof.
  destruct call; cbn [options_of foldl];
    try (run_op; reflexivity).
  - unfold receiver_after, perform, Template, bind.
    destruct (yaml_Marshal values) as [yaml [e|]]; [reflexivity|].
    run_op; reflexivity.
  - unfold receiver_after, perform, UpgradeChartWithValuesFile, bind.
    rewrite applyAll_run. run_op; reflexivity.
Qed.

(** Splitting a membership in a built argument list into its cases. *)
Ltac split_elem H :=
  repeat match type of H with
         | _ ∈ _ ++ _ => rewrite elem_of_app in H
         | _ ∈ _ :: _ => rewrite elem_of_cons in H
         | _ ∈ [] => by apply elem_of_nil in H
         | _ ∈ GetHelmValueArgs _ => apply elem_of_GetHelmValueArgs in H
         | _ ∨ _ => destruct H as [H|H]
         | _ = _ => discriminate H
         end.




(** ** RegistryLogin *)

Lemma RegistryLogin_commands `{C : Collaborators}
    (c : context_Context) (registry username password : string) (st : State) :
  commands_of (RegistryLogin c registry username password) st
  = [ {| ctx := c;
         args := if insecure (self st)
                 then ["registry"; "login"; registry; "--username"; username;
                       "--password-stdin"] ++ ["--insecure"]
                 else ["registry"; "login"; registry; "--username"; username;
                       "--password-stdin"];
         stdIn := password;
         envVars := env (self st) |} ].
Proof. run_op; reflexivity. Qed.

(** C5: RegistryLogin runs one command whose standard input is the
    password and whose argument list is made of the registry and the user
    name alone: registry, login, the registry, --username, the user name,
    --password-stdin, and --insecure on an insecure receiver.  For any other
    password the command is the same but for its standard input: the
    password is never placed in the argument list, it reaches the external
    process as the standard-input payload only.  Its text is therefore in
    the list only where the caller gave that same text as registry or user
    name, or where it is one of the fixed tokens. *)
Theorem RegistryLogin_password `{C : Collaborators}
    (c : context_Context) (registry username password : string) (st : State) :
  ∃ cmd, commands_of (RegistryLogin c registry username password) st = [cmd]
    ∧ stdIn cmd = password
    ∧ args cmd
      = (if insecure (self st)
         then ["registry"; "login"; registry; "--username"; username; "--password-stdin";
               "--insecure"]
         else ["registry"; "login"; registry; "--username"; username; "--password-stdin"])
    ∧ (∀ other, commands_of (RegistryLogin c registry username other) st
                = [ {| ctx := ctx cmd; args := args cmd; stdIn := other;
                       envVars := envVars cmd |} ])
    ∧ (password ∉ [registry; username; "registry"; "login"; "--username";
                   "--password-stdin"; "--insecure"] →
       password ∉ args cmd).
Proof.
  eexists. split; [apply RegistryLogin_commands|].
  cbn [ctx stdIn args envVars]. split; [reflexivity|]. split; [|split].
  - by destruct (insecure (self st)).
  - intros other. by rewrite RegistryLogin_commands.
  - intros Hnot Hin. apply Hnot. clear Hnot.
    destruct (insecure (self st));
      repeat (rewrite ?elem_of_app, ?elem_of_cons, ?elem_of_nil in Hin);
      rewrite !elem_of_cons; tauto.
Qed.

Lemma RegistryLogin_password_witness :
  let st := {| self := NewHelm (C := sample) (answering "" None) []; trace := [] |} in
  ∃ cmd, commands_of (RegistryLogin (C := sample) tt "registry.local" "user" "secret") st
         = [cmd]
    ∧ stdIn cmd = "secret" ∧ "secret" ∉ args cmd.
Proof.
  intros st.
  destruct (RegistryLogin_password (C := sample) tt "registry.local" "user" "secret" st)
    as (cmd & Hcmd & Hin & _ & _ & Hargs).
  exists cmd. split; [exact Hcmd|]. split; [exact Hin|].
  apply Hargs. apply (bool_decide_unpack _). by vm_compute.
Defined.

(** C10 (amended): with the insecure flag set RegistryLogin appends
    "--insecure" as the last argument, a token that differs from the
    skip-verification flag that [addInsecureFlagIfProvided] appends for
    other operations; with the flag not set it appends nothing, so its list
    is the six tokens registry, login, the registry, --username, the user
    name, --password-stdin, and a token that switches certificate checks off
    is in it only if the caller passed it as registry or user name. *)
Theorem RegistryLogin_insecure_token `{C : Collaborators}
    (c : context_Context) (registry username password : string) (st : State) :
  let base := ["registry"; "login"; registry; "--username"; username;
               "--password-stdin"] in
  ∃ cmd, commands_of (RegistryLogin c registry username password) st = [cmd]
    ∧ (insecure (self st) = true →
       args cmd = base ++ ["--insecure"] ∧ last (args cmd) = Some "--insecure")
    ∧ "--insecure" ≠ insecureSkipVerifyFlag
    ∧ (insecure (self st) = false →
       args cmd = base
       ∧ ∀ token, token ∈ args cmd → insecure_related token = true →
                  token = registry ∨ token = username).
Proof.
  intros base. eexists. split; [apply RegistryLogin_commands|].
  cbn [args]. split; [|split; [discriminate|]]; intros ->.
  - split; reflexivity.
  - split; [reflexivity|]. intros token Hin Hrel.
    unfold insecure_related, insecureSkipVerifyFlag in Hrel.
    apply orb_true_iff in Hrel.
    destruct Hrel as [Hrel|Hrel]; apply bool_decide_eq_true in Hrel; subst token;
      subst base; split_elem Hin; auto.
Qed.

Lemma RegistryLogin_insecure_token_witness :
  let on := {| self := NewHelm (C := sample) (answering "" None) [WithInsecure];
               trace := [] |} in
  let off := {| self := NewHelm (C := sample) (answering "" None) []; trace := [] |} in
  (∃ cmd, commands_of (RegistryLogin (C := sample) tt "registry.local" "user" "secret") on
          = [cmd]
          ∧ last (args cmd) = Some "--insecure")
  ∧ (∃ cmd, commands_of (RegistryLogin (C := sample) tt "registry.local" "user" "secret") off
            = [cmd]
            ∧ args cmd = ["registry"; "login"; "registry.local"; "--username"; "user";
                          "--password-stdin"]).
Proof.
  intros on off. split.
  - destruct (RegistryLogin_insecure_token (C := sample) tt "registry.local" "user"
                "secret" on) as (cmd & Hcmd & Hon & _).
    exists cmd. split; [exact Hcmd|]. apply Hon. reflexivity.
  - destruct (RegistryLogin_insecure_token (C := sample) tt "registry.local" "user"
                "secret" off) as (cmd & Hcmd & _ & _ & Hoff).
    exists cmd. split; [exact Hcmd|]. apply Hoff. reflexivity.
Defined.

(** C10 as stated fails.  With the insecure flag not set, a registry
    argument that is itself "--insecure" puts that token in the list; and
    not every other operation uses the skip-verification flag: on an
    insecure instance ShowValues builds its list without it. *)
Lemma RegistryLogin_insecure_token_from_caller :
  let on := {| self := NewHelm (C := sample) (answering "" None) [WithInsecure];
               trace := [] |} in
  let off := {| self := NewHelm (C := sample) (answering "" None) []; trace := [] |} in
  insecure (self off) = false
  ∧ args <$> commands_of (RegistryLogin (C := sample) tt "--insecure" "user" "secret") off
    = [["registry"; "login"; "--insecure"; "--username"; "user"; "--password-stdin"]]
  ∧ insecure_related "--insecure" = true
  ∧ "--insecure" ∈ ["registry"; "login"; "--insecure"; "--username"; "user";
                    "--password-stdin"]
  ∧ insecure (self on) = true
  ∧ args <$> commands_of (ShowValues (C := sample) tt "public.ecr.aws/x" "1.0") on
    = [["show"; "values"; "public.ecr.aws/x"; "--version"; "1.0"]].
Proof.
  intros on off. repeat split.
  apply (bool_decide_unpack _). by vm_compute.
Qed.

(** ** ListCharts *)

Lemma append_empty_r (s : string) : s +:+ "" = s.
Proof.
  induction s as [|a s IH]; [reflexivity|].
  change (String a (s +:+ "") = String a s). by rewrite IH.
Qed.

Lemma append_char_assoc (w : string) (a : ascii) (s : string) :
  (w +:+ String a "") +:+ s = w +:+ String a s.
Proof.
  induction w as [|b w IH]; [reflexivity|].
  change (String b ((w +:+ String a "") +:+ s) = String b (w +:+ String a s)).
  by rewrite IH.
Qed.

Lemma append_nonempty (w : string) (a : ascii) : w +:+ String a "" ≠ "".
Proof. destruct w; discriminate. Qed.

Lemma split_on_newlines_cons (s : string) :
  ∃ seg segs, split_on_newlines s = seg :: segs.
Proof.
  induction s as [|a s (seg & segs & IH)]; simpl; [by eauto|].
  case_bool_decide; [by eauto|]. rewrite IH. by eauto.
Qed.

(** The loop with a field in progress continues the first segment; with
    none it starts afresh. *)
Lemma fieldsLoop_split (s : string) :
  fieldsLoop (λ a, bool_decide (a = newline)) s None = nonempty_lines s
  ∧ ∀ w, w ≠ "" →
      fieldsLoop (λ a, bool_decide (a = newline)) s (Some w)
      = match split_on_newlines s with
        | seg :: segs => filter (λ x, x ≠ "") ((w +:+ seg) :: segs)
        | [] => [w]
        end.
Proof.
  unfold nonempty_lines.
  induction s as [|a s [IHnone IHsome]]; simpl.
  - split; [reflexivity|]. intros w Hw.
    rewrite append_empty_r. by rewrite filter_cons_True.
  - destruct (split_on_newlines_cons s) as (seg & segs & Hs).
    case_bool_decide as Ha.
    + split.
      * by rewrite filter_cons_False by (intros Hne; by apply Hne).
      * intros w Hw. rewrite append_empty_r.
        rewrite filter_cons_True by done. by rewrite IHnone.
    + rewrite Hs in *. split.
      * by rewrite (IHsome (String a "")).
      * intros w Hw. rewrite (IHsome _ (append_nonempty w a)).
        by rewrite append_char_assoc.
Qed.

Lemma FieldsFunc_newline (out : string) :
  FieldsFunc out (λ a, bool_decide (a = newline)) = nonempty_lines out.
Proof. apply fieldsLoop_split. Qed.

(** C6: ListCharts runs list -q --kubeconfig <path>; when the runner
    answers with an output and no error, the result is the output cut at
    the newlines with the empty segments dropped, in order; when the runner
    answers with an error, the result is that error and no list.  The
    output a, b, empty line, c gives the list a, b, c. *)
Theorem ListCharts_lines `{C : Collaborators}
    (c : context_Context) (kubeconfigFilePath : string) (st : State) :
  (∃ cmd, commands_of (ListCharts c kubeconfigFilePath) st = [cmd]
     ∧ args cmd = ["list"; "-q"; "--kubeconfig"; kubeconfigFilePath]
     ∧ result_of (ListCharts c kubeconfigFilePath) st
       = match executable (self st) (trace st) cmd with
         | (out, None) => (nonempty_lines out, None)
         | (_, Some err) => ([], Some err)
         end)
  ∧ (∀ mirror e flag tr,
       result_of (ListCharts c kubeconfigFilePath)
         {| self := {| executable := answering sample_listing None;
                       registryMirror := mirror; env := e; insecure := flag |};
            trace := tr |}
       = (["a"; "b"; "c"], None)).
Proof.
  split.
  - eexists. split; [run_op; reflexivity|]. split; [reflexivity|].
    unfold_op.
    destruct (executable _ _ _) as [out [err|]]; cbn [fst]; [reflexivity|].
    by rewrite FieldsFunc_newline.
  - intros mirror e flag tr. reflexivity.
Qed.

(** ** Delete *)

(** C7: Delete runs one command; when the runner fails with an error whose
    text is M, Delete returns an error whose text is the prefix
    "deleting helm installation " followed by M, and which wraps the runner's
    error; when the runner succeeds, Delete returns no error. *)
Theorem Delete_error `{C : Collaborators}
    (c : context_Context) (kubeconfigFilePath installName namespace : string)
    (st : State) :
  ∃ cmd, commands_of (Delete c kubeconfigFilePath installName namespace) st = [cmd]
    ∧ (∀ out cause,
         executable (self st) (trace st) cmd = (out, Some cause) →
         ∃ err, result_of (Delete c kubeconfigFilePath installName namespace) st = Some err
                ∧ Error err = "deleting helm installation " +:+ Error cause
                ∧ Unwrap err = Some cause)
    ∧ (∀ out,
         executable (self st) (trace st) cmd = (out, None) →
         result_of (Delete c kubeconfigFilePath installName namespace) st = None).
Proof.
  eexists. split; [run_op; reflexivity|]. split.
  - intros out cause Hrun. unfold_op. rewrite Hrun. cbn [fst].
    eexists. split; [reflexivity|]. split; reflexivity.
  - intros out Hrun. unfold_op. by rewrite Hrun.
Qed.

Lemma Delete_error_witness :
  let failing := {| self := NewHelm (C := sample)
                              (answering "" (Some (errorString "release: not found"))) [];
                    trace := [] |} in
  let working := {| self := NewHelm (C := sample) (answering "" None) []; trace := [] |} in
  (∃ err, result_of (Delete (C := sample) tt "kubeconfig" "r" "ns") failing = Some err
          ∧ Error err = "deleting helm installation release: not found")
  ∧ result_of (Delete (C := sample) tt "kubeconfig" "r" "ns") working = None.
Proof.
  intros failing working. split.
  - destruct (Delete_error (C := sample) tt "kubeconfig" "r" "ns" failing)
      as (cmd & _ & Hfail & _).
    destruct (Hfail "" (errorString "release: not found") eq_refl)
      as (err & Hres & Hmsg & _).
    exists err. split; [exact Hres|exact Hmsg].
  - destruct (Delete_error (C := sample) tt "kubeconfig" "r" "ns" working)
      as (cmd & _ & _ & Hok).
    apply (Hok ""). reflexivity.
Defined.

(** ** Options applied by UpgradeChartWithValuesFile *)

Lemma UpgradeChartWithValuesFile_receiver `{C : Collaborators}
    (c : context_Context) (chart ociURI version kubeconfigFilePath valuesFilePath : string)
    (opts : list HelmOpt) (st : State) :
  receiver_after (UpgradeChartWithValuesFile c chart ociURI version kubeconfigFilePath
                    valuesFilePath opts) st
  = foldl (λ h o, o h) (self st) opts.
Proof.
  exact (perform_receiver c
           (CallUpgradeChartWithValuesFile chart ociURI version kubeconfigFilePath
              valuesFilePath opts) st).
Qed.

Lemma performAll_receiver `{C : Collaborators}
    (c : context_Context) (calls : list Call) (st : State) :
  receiver_after (performAll c calls) st
  = foldl (λ h o, o h) (self st) (concat (options_of <$> calls)).
Proof.
  revert st. induction calls as [|call calls IH]; intros st; [reflexivity|].
  cbn [performAll fmap list_fmap concat]. rewrite foldl_app.
  rewrite <- (perform_receiver c call st).
  unfold receiver_after, bind in *.
  destruct (perform c call st) as [r st'] eqn:Hp. cbn [snd]. apply IH.
Qed.

(** C8: UpgradeChartWithValuesFile applies the options it is given, in
    order, to the receiver; the command of this call is built from the
    receiver so changed (its flag decides the skip-verification token, its
    environment is passed on), and the change stays: after any further calls
    the receiver is the changed one, changed only by the options of later
    upgrades.  In particular after an upgrade given WithInsecure the
    receiver is insecure, the upgrade's own argument list ends with the
    flag, and so does that of a PullChart made next. *)
Theorem UpgradeChartWithValuesFile_mutates `{C : Collaborators}
    (c : context_Context) (chart ociURI version kubeconfigFilePath valuesFilePath : string)
    (opts : list HelmOpt) (st : State) :
  let upgrade := UpgradeChartWithValuesFile c chart ociURI version kubeconfigFilePath
                   valuesFilePath in
  let h' := foldl (λ h o, o h) (self st) opts in
  receiver_after (upgrade opts) st = h'
  ∧ commands_of (upgrade opts) st
    = [WithEnvVars (env h')
         (newCommand c
            (addInsecureFlagIfProvided h'
               ["upgrade"; chart; ociURI; "--version"; version;
                "--values"; valuesFilePath; "--kubeconfig"; kubeconfigFilePath;
                "--wait"]))]
  ∧ (∀ calls, receiver_after (performAll c calls) (upgrade opts st).2
              = foldl (λ h o, o h) h' (concat (options_of <$> calls)))
  ∧ insecure (receiver_after (upgrade [WithInsecure]) st) = true
  ∧ last <$> (args <$> commands_of (upgrade [WithInsecure]) st)
    = [Some insecureSkipVerifyFlag]
  ∧ (∀ ref ver,
       last <$> (args <$> commands_of (PullChart c ref ver) (upgrade [WithInsecure] st).2)
       = [Some insecureSkipVerifyFlag]).
Proof.
  intros upgrade h'.
  assert (Hrun : ∀ os, ∃ r,
            upgrade os st
            = (r, {| self := foldl (λ h o, o h) (self st) os;
                     trace := trace st ++
                       [WithEnvVars (env (foldl (λ h o, o h) (self st) os))
                          (newCommand c
                             (addInsecureFlagIfProvided (foldl (λ h o, o h) (self st) os)
                                ["upgrade"; chart; ociURI; "--version"; version;
                                 "--values"; valuesFilePath; "--kubeconfig";
                                 kubeconfigFilePath; "--wait"]))] |})).
  { intros os. subst upgrade. unfold UpgradeChartWithValuesFile, bind.
    rewrite applyAll_run. unfold_op.
    destruct (executable _ _ _) as [out err]. by eexists. }
  split; [|split; [|split; [|split; [|split]]]].
  - destruct (Hrun opts) as [r Hr]. unfold receiver_after. by rewrite Hr.
  - destruct (Hrun opts) as [r Hr]. unfold commands_of. rewrite Hr.
    cbn [snd trace]. apply drop_trace.
  - intros calls. rewrite performAll_receiver.
    destruct (Hrun opts) as [r Hr]. by rewrite Hr.
  - destruct (Hrun [WithInsecure]) as [r Hr]. unfold receiver_after. by rewrite Hr.
  - destruct (Hrun [WithInsecure]) as [r Hr]. unfold commands_of. rewrite Hr.
    cbn [snd trace]. rewrite drop_trace. reflexivity.
  - intros ref ver. destruct (Hrun [WithInsecure]) as [r Hr]. rewrite Hr.
    run_op; reflexivity.
Qed.

(** ** What a call hands to the runner *)

(** What any call does: with values that do not serialise, Template stops
    with an error and the state as it was; every other call applies its
    options, runs exactly one command, built for the context it was given
    and carrying the receiver's environment and the call's standard-input
    payload, and returns the runner's error (wrapped, for Delete). *)
Lemma perform_shape `{C : Collaborators} (c : context_Context) (call : Call) (st : State) :
  let h' := foldl (λ h o, o h) (self st) (options_of call) in
  if marshal_fails call then
    ∃ e, perform c call st = (Some e, st)
  else
    ∃ cmd,
      perform c call st
      = (if is_Delete call
         then match (executable h' (trace st) cmd).2 with
              | Some e => Some (Errorf_w "deleting helm installation " e)
              | None => None
              end
         else (executable h' (trace st) cmd).2,
         {| self := h'; trace := trace st ++ [cmd] |})
      ∧ ctx cmd = c ∧ envVars cmd = env h'
      ∧ stdIn cmd = match call with
                    | CallTemplate _ _ _ values _ => (yaml_Marshal values).1
                    | CallRegistryLogin _ _ password => password
                    | _ => ""
                    end.
Proof.
  intros h'. subst h'.
  destruct call; cbn [marshal_fails is_Delete options_of foldl].
  all: unfold perform, UpgradeChartWithValuesFile, Template, bind;
    rewrite ?applyAll_run.
  all: try (destruct (yaml_Marshal values) as [yaml [e|]]; cbn [snd];
            [by eexists|]).
  all: unfold PullChart, ShowValues, PushChart, RegistryLogin, SaveChart,
         InstallChartFromName, InstallChart, InstallChartWithValuesFile, Delete,
         ListCharts, bind, this, Run, ret; cbn [fst snd self trace].
  all: match goal with
       | |- context [executable ?h ?t ?cmd] =>
           exists cmd; destruct (executable h t cmd) as [out [err|]]
       end.
  all: by repeat split.
Qed.

(** ** The environment *)

(** Writing every entry of [e] into [m] gives the union that prefers [e]. *)
Lemma merge_entries (m e : gmap string string) :
  map_fold (λ k v acc, <[k:=v]> acc) m e = e ∪ m.
Proof.
  apply (map_fold_weak_ind (λ r e', r = e' ∪ m)).
  - by rewrite (left_id_L ∅ (∪)).
  - intros k v e' r _ ->. by rewrite insert_union_l.
Qed.


Lemma merged_lookup (envs : list (gmap string string)) (m : gmap string string) (k : string) :
  foldl (λ acc e, e ∪ acc) m envs !! k = merged_value (m !! k) envs k.
Proof.
  unfold merged_value. revert m.
  induction envs as [|e envs IH]; intros m; [reflexivity|].
  cbn [foldl]. rewrite IH. f_equal.
  rewrite lookup_union. by destruct (e !! k), (m !! k).
Qed.


(** Every command of a call carries the environment of the receiver. *)
Lemma perform_env `{C : Collaborators} (c : context_Context) (call : Call) (st : State) :
  Forall (λ cmd, envVars cmd = env (receiver_after (perform c call) st))
         (commands_of (perform c call) st).
Proof.
  rewrite perform_receiver.
  destruct call; cbn [options_of foldl].
  all: unfold commands_of, perform, UpgradeChartWithValuesFile, Template, bind;
    rewrite ?applyAll_run.
  all: try (destruct (yaml_Marshal values) as [yaml [e|]];
            [unfold ret; cbn [snd]; rewrite drop_all; by constructor|]).
  all: run_op; (constructor; [reflexivity|by constructor]).
Qed.



(** * Further properties of helm.go *)

(** ** One command per call *)

(** X1: a call extends the trace of commands by what it runs and touches
    nothing that was there; it runs exactly one command, built for the
    context it was given, except Template with values that do not
    serialise, which runs none. *)
Theorem one_command_per_call `{C : Collaborators}
    (c : context_Context) (call : Call) (st : State) :
  trace (perform c call st).2 = trace st ++ commands_of (perform c call) st
  ∧ length (commands_of (perform c call) st) = (if marshal_fails call then 0 else 1)
  ∧ Forall (λ cmd, ctx cmd = c) (commands_of (perform c call) st).
Proof.
  pose proof (perform_shape c call st) as Hshape. cbv zeta in Hshape.
  unfold commands_of.
  destruct (marshal_fails call).
  - destruct Hshape as [e ->]. cbn [snd]. rewrite drop_all, app_nil_r.
    by repeat split.
  - destruct Hshape as (cmd & -> & Hctx & _). cbn [snd trace].
    rewrite drop_trace. repeat split. by repeat constructor.
Qed.



(** X3: standard input is used by two operations only.  Every call that
    reaches the runner hands it one command; the command of Template carries
    the serialised values as standard input, that of RegistryLogin the
    password, and the command of every other operation carries none. *)
Theorem standard_input_payload `{C : Collaborators}
    (c : context_Context) (call : Call) (st : State) :
  marshal_fails call = false →
  ∃ cmd, commands_of (perform c call) st = [cmd]
    ∧ stdIn cmd = match call with
                  | CallTemplate _ _ _ values _ => (yaml_Marshal values).1
                  | CallRegistryLogin _ _ password => password
                  | _ => ""
                  end.
Proof.
  intros Hm.
  pose proof (perform_shape c call st) as Hshape. cbv zeta in Hshape.
  rewrite Hm in Hshape. destruct Hshape as (cmd & Hrun & _ & _ & Hin).
  exists cmd. unfold commands_of. rewrite Hrun.
  cbn [snd trace]. rewrite drop_trace. by split.
Qed.

Lemma standard_input_payload_witness :
  let st := {| self := NewHelm (C := sample) (answering "" None) []; trace := [] |} in
  (∃ cmd, commands_of (perform (C := sample) tt
                         (CallTemplate (C := sample) "public.ecr.aws/x" "1.0" "ns"
                            (Some "a: 1") "1.27"))
            st = [cmd]
          ∧ stdIn cmd = "a: 1")
  ∧ (∃ cmd, commands_of (perform (C := sample) tt
                           (CallRegistryLogin "registry.local" "user" "secret")) st = [cmd]
            ∧ stdIn cmd = "secret")
  ∧ (∃ cmd, commands_of (perform (C := sample) tt
                           (CallPullChart "public.ecr.aws/x" "1.0")) st = [cmd]
            ∧ stdIn cmd = "").
Proof.
  intros st. split; [|split].
  - apply (standard_input_payload (C := sample) tt
             (CallTemplate (C := sample) "public.ecr.aws/x" "1.0" "ns" (Some "a: 1")
                "1.27") st).
    reflexivity.
  - apply (standard_input_payload (C := sample) tt
             (CallRegistryLogin "registry.local" "user" "secret") st).
    reflexivity.
  - apply (standard_input_payload (C := sample) tt
             (CallPullChart "public.ecr.aws/x" "1.0") st).
    reflexivity.
Defined.

(** ** What Template and ShowValues return *)

(** X4: when the values serialise, Template returns the runner's output
    when the runner succeeds; when the runner fails it returns the runner's
    error and no bytes, whatever the runner had captured.  ShowValues
    returns the runner's output and error as they are, output included when
    the runner fails. *)
Theorem Template_and_ShowValues_results `{C : Collaborators}
    (c : context_Context) (ociURI version namespace : string) (values : Values)
    (kubeVersion yaml : string) (st : State) :
  yaml_Marshal values = (yaml, None) →
  (∃ cmd, commands_of (Template c ociURI version namespace values kubeVersion) st = [cmd]
     ∧ result_of (Template c ociURI version namespace values kubeVersion) st
       = match executable (self st) (trace st) cmd with
         | (out, None) => (out, None)
         | (_, Some err) => ("", Some err)
         end)
  ∧ (∃ cmd, commands_of (ShowValues c ociURI version) st = [cmd]
       ∧ result_of (ShowValues c ociURI version) st
         = executable (self st) (trace st) cmd).
Proof.
  intros Hm. split.
  - unfold commands_of, result_of, Template. rewrite Hm.
    unfold bind, this, Run, ret. cbn [fst snd self trace].
    match goal with
    | |- context [executable ?h ?t ?cmd] =>
        exists cmd; destruct (executable h t cmd) as [out [err|]]
    end; cbn [fst snd trace]; by rewrite drop_trace.
  - unfold commands_of, result_of, ShowValues, bind, this, Run, ret.
    cbn [fst snd self trace].
    match goal with
    | |- context [executable ?h ?t ?cmd] =>
        exists cmd; destruct (executable h t cmd) as [out [err|]]
    end; cbn [fst snd trace]; by rewrite drop_trace.
Qed.

Lemma Template_and_ShowValues_results_witness :
  let st := {| self := NewHelm (C := sample)
                         (answering "partial" (Some (errorString "exit status 1"))) [];
               trace := [] |} in
  result_of (Template (C := sample) tt "public.ecr.aws/x" "1.0" "ns" (Some "a: 1") "1.27") st
  = ("", Some (errorString "exit status 1"))
  ∧ result_of (ShowValues (C := sample) tt "public.ecr.aws/x" "1.0") st
    = ("partial", Some (errorString "exit status 1")).
Proof.
  intros st.
  destruct (Template_and_ShowValues_results (C := sample) tt "public.ecr.aws/x" "1.0" "ns"
              (Some "a: 1") "1.27" "a: 1" st eq_refl)
    as [(cmd1 & _ & H1) (cmd2 & _ & H2)].
  split; [exact H1|exact H2].
Defined.

(** ** GetHelmValueArgs *)

(** X5: GetHelmValueArgs gives two tokens per value, --set at the even
    places and the values, in their order, at the odd ones; it maps the
    empty list to the empty list and the concatenation of two lists to the
    concatenation of their results. *)
Theorem GetHelmValueArgs_pairs (values more : list string) :
  length (GetHelmValueArgs values) = 2 * length values
  ∧ GetHelmValueArgs (values ++ more) = GetHelmValueArgs values ++ GetHelmValueArgs more
  ∧ (values = [] ↔ GetHelmValueArgs values = [])
  ∧ (∀ i value, values !! i = Some value →
       GetHelmValueArgs values !! (2 * i) = Some "--set"
       ∧ GetHelmValueArgs values !! (2 * i + 1) = Some value).
Proof.
  rewrite !GetHelmValueArgs_flat. split; [|split; [|split]].
  - induction values as [|v vs IH]; simpl; [reflexivity|]. rewrite IH. lia.
  - by rewrite flat_map_app.
  - destruct values; split; intros Heq; try reflexivity; discriminate Heq.
  - induction values as [|v vs IH]; intros i value Hi; [by destruct i|].
    destruct i as [|i]; simpl in Hi.
    + injection Hi as ->. by split.
    + destruct (IH i value Hi) as [Heven Hodd].
      replace (2 * S i) with (S (S (2 * i))) by lia.
      replace (S (S (2 * i)) + 1) with (S (S (2 * i + 1))) by lia.
      by split.
Qed.

Lemma GetHelmValueArgs_pairs_witness :
  GetHelmValueArgs ["a=1"; "b=2"] !! 2 = Some "--set"
  ∧ GetHelmValueArgs ["a=1"; "b=2"] !! 3 = Some "b=2".
Proof.
  apply (proj2 (proj2 (proj2 (GetHelmValueArgs_pairs ["a=1"; "b=2"] []))) 1 "b=2").
  reflexivity.
Defined.

(** ** The three options, in any order *)

Lemma provided_options_fold `{C : Collaborators} (os : list ProvidedOpt) (h : Helm) :
  let h' := foldl (λ h o, o h) h (toHelmOpt <$> os) in
  executable h' = executable h
  ∧ insecure h' = insecure h || existsb sets_insecure os
  ∧ registryMirror h' = last_mirror (registryMirror h) os
  ∧ env h' = foldl (λ acc e, e ∪ acc) (env h) (env_maps os).
Proof.
  revert h. induction os as [|o os IH]; intros h.
  - cbn. by rewrite orb_false_r.
  - cbn [fmap list_fmap foldl existsb env_maps flat_map].
    destruct (IH (toHelmOpt o h)) as (Hexe & Hins & Hmir & Henv).
    cbv zeta. unfold last_mirror in *. cbn [foldl].
    rewrite Hexe, Hins, Hmir, Henv. rewrite foldl_app.
    destruct o; cbn [toHelmOpt sets_insecure WithRegistryMirror WithInsecure WithEnv
                     executable insecure registryMirror env foldl app];
      rewrite ?merge_entries, ?orb_true_r, ?orb_false_r; by repeat split.
Qed.

(** X6: for a Helm built by NewHelm from any list of the three options, in
    any order: the runner is the one given; the instance is insecure
    exactly when WithInsecure is in the list; the mirror is the one of the
    last WithRegistryMirror, none when there is none; and the environment
    is the default mapping with the WithEnv maps merged in, in order, the
    other options leaving it alone. *)
Theorem NewHelm_provided_options `{C : Collaborators}
    (exe : Executable) (os : list ProvidedOpt) :
  let h := NewHelm exe (toHelmOpt <$> os) in
  executable h = exe
  ∧ insecure h = existsb sets_insecure os
  ∧ registryMirror h = last_mirror None os
  ∧ env h = foldl (λ acc e, e ∪ acc) defaultEnv (env_maps os)
  ∧ (∀ k, env h !! k = merged_value (defaultEnv !! k) (env_maps os) k).
Proof.
  intros h. subst h. unfold NewHelm.
  destruct (provided_options_fold os
              {| executable := exe; registryMirror := None; env := defaultEnv;
                 insecure := false |}) as (Hexe & Hins & Hmir & Henv).
  cbn [executable insecure registryMirror env orb] in *.
  repeat split; try done.
  intros k. rewrite Henv. apply merged_lookup.
Qed.

(** X7: none of the three options switches the insecure flag off.  On an
    insecure receiver, whatever options of the three
    UpgradeChartWithValuesFile is given, the receiver stays insecure and the
    argument list of the upgrade ends with the skip-verification flag. *)
Theorem insecure_stays_set `{C : Collaborators}
    (c : context_Context) (chart ociURI version kubeconfigFilePath valuesFilePath : string)
    (os : list ProvidedOpt) (st : State) :
  insecure (self st) = true →
  let upgrade := UpgradeChartWithValuesFile c chart ociURI version kubeconfigFilePath
                   valuesFilePath (toHelmOpt <$> os) in
  insecure (receiver_after upgrade st) = true
  ∧ last <$> (args <$> commands_of upgrade st) = [Some insecureSkipVerifyFlag].
Proof.
  intros Hi upgrade.
  assert (Hafter : insecure (foldl (λ h o, o h) (self st) (toHelmOpt <$> os)) = true).
  { destruct (provided_options_fold os (self st)) as (_ & -> & _). by rewrite Hi. }
  subst upgrade. split.
  - by rewrite UpgradeChartWithValuesFile_receiver.
  - unfold commands_of, UpgradeChartWithValuesFile, bind. rewrite applyAll_run.
    run_op; cbn [fmap list_fmap args WithEnvVars newCommand];
      rewrite (addInsecureFlag_set _ _ Hafter); by rewrite last_snoc.
Qed.

Lemma insecure_stays_set_witness :
  let st := {| self := NewHelm (C := sample) (answering "" None) [WithInsecure];
               trace := [] |} in
  insecure (receiver_after
              (UpgradeChartWithValuesFile (C := sample) tt "r" "public.ecr.aws/x" "1.0"
                 "kubeconfig" "values.yaml"
                 (toHelmOpt <$> [OptEnv ∅; OptRegistryMirror None])) st) = true.
Proof.
  intros st.
  apply (insecure_stays_set (C := sample) tt "r" "public.ecr.aws/x" "1.0" "kubeconfig"
           "values.yaml" [OptEnv ∅; OptRegistryMirror None] st).
  reflexivity.
Defined.

(** X8: the variable HELM_EXPERIMENTAL_OCI is never lost.  On a Helm
    built by NewHelm from the three options, every command of every call
    (an upgrade being given options of the three) carries a value for it:
    the one of the last WithEnv map that sets it, and 1 when none does. *)
Theorem experimental_oci_always_passed `{C : Collaborators}
    (exe : Executable) (os later : list ProvidedOpt)
    (c : context_Context) (call : Call) (tr : list Command) :
  options_of call = toHelmOpt <$> later →
  Forall (λ cmd, envVars cmd !! "HELM_EXPERIMENTAL_OCI"
                 = merged_value (Some "1") (env_maps (os ++ later)) "HELM_EXPERIMENTAL_OCI"
                 ∧ is_Some (envVars cmd !! "HELM_EXPERIMENTAL_OCI"))
         (commands_of (perform c call)
            {| self := NewHelm exe (toHelmOpt <$> os); trace := tr |}).
Proof.
  intros Hopts.
  set (st := {| self := NewHelm exe (toHelmOpt <$> os); trace := tr |}).
  assert (Henv : env (receiver_after (perform c call) st)
                 = foldl (λ acc e, e ∪ acc) defaultEnv (env_maps (os ++ later))).
  { rewrite perform_receiver, Hopts. subst st. cbn [self]. unfold NewHelm.
    rewrite <- foldl_app, <- fmap_app.
    destruct (provided_options_fold (os ++ later)
                {| executable := exe; registryMirror := None; env := defaultEnv;
                   insecure := false |}) as (_ & _ & _ & Hfold).
    exact Hfold. }
  assert (Hval : ∀ envs init, is_Some init →
            is_Some (merged_value init envs "HELM_EXPERIMENTAL_OCI")).
  { unfold merged_value. induction envs as [|e envs IH]; intros init Hinit; [done|].
    cbn [foldl]. apply IH. by destruct (e !! "HELM_EXPERIMENTAL_OCI"). }
  eapply Forall_impl; [apply perform_env|].
  intros cmd ->. rewrite Henv, merged_lookup.
  change (defaultEnv !! "HELM_EXPERIMENTAL_OCI") with (Some "1").
  split; [reflexivity|]. by apply Hval.
Qed.

Lemma experimental_oci_always_passed_witness :
  Forall (λ cmd, envVars cmd !! "HELM_EXPERIMENTAL_OCI" = Some "0")
         (commands_of (perform (C := sample) tt (CallPullChart "public.ecr.aws/x" "1.0"))
            {| self := NewHelm (answering "" None)
                         (toHelmOpt <$> [OptEnv {[ "HELM_EXPERIMENTAL_OCI" := "0" ]};
                                         OptInsecure]);
               trace := [] |}).
Proof.
  eapply Forall_impl.
  - apply (experimental_oci_always_passed (C := sample) (answering "" None)
             [OptEnv {[ "HELM_EXPERIMENTAL_OCI" := "0" ]}; OptInsecure] []
             tt (CallPullChart "public.ecr.aws/x" "1.0") []).
    reflexivity.
  - intros cmd [Hval _]. rewrite Hval. by vm_compute.
Defined.

(** ** Optional arguments of InstallChart *)

Lemma InstallChart_commands `{C : Collaborators} (c : context_Context)
    (chart ociURI version kubeconfigFilePath namespace valueFilePath : string)
    (skipCRDs : bool) (values : list string) (st : State) :
  commands_of (InstallChart c chart ociURI version kubeconfigFilePath namespace
                 valueFilePath skipCRDs values) st
  = [WithEnvVars (env (self st))
       (newCommand c
          (addInsecureFlagIfProvided (self st)
             (["upgrade"; "--install"; chart; ociURI; "--version"; version]
              ++ (if skipCRDs then ["--skip-crds"] else [])
              ++ flat_map (λ value, ["--set"; value]) values
              ++ (if bool_decide (kubeconfigFilePath = "") then []
                  else ["--kubeconfig"; kubeconfigFilePath])
              ++ (if bool_decide (namespace = "") then []
                  else ["--create-namespace"; "--namespace"; namespace])
              ++ (if bool_decide (valueFilePath = "") then []
                  else ["-f"; valueFilePath]))))].
Proof.
  run_op; rewrite GetHelmValueArgs_flat; do 4 f_equal.
  all: destruct skipCRDs, kubeconfigFilePath, namespace, valueFilePath;
    repeat case_bool_decide; try done; try (cbn [String.length] in *; lia).
  all: by rewrite <- ?app_assoc, ?app_nil_r.
Qed.

(** X9: the argument list of InstallChart is the six leading tokens
    followed, in this order, by --skip-crds when CRDs are skipped, a --set
    pair per inline value, --kubeconfig and the path when the path is not
    empty, --create-namespace --namespace and the namespace when it is not
    empty, -f and the values file when it is not empty, and the
    skip-verification flag on an insecure receiver.  With an empty
    kube-config path no --kubeconfig token is passed at all, unless the
    caller supplies that text in another argument. *)
Theorem InstallChart_optional_arguments `{C : Collaborators} (c : context_Context)
    (chart ociURI version kubeconfigFilePath namespace valueFilePath : string)
    (skipCRDs : bool) (values : list string) (st : State) :
  ∃ cmd,
    commands_of (InstallChart c chart ociURI version kubeconfigFilePath namespace
                   valueFilePath skipCRDs values) st = [cmd]
    ∧ args cmd
      = addInsecureFlagIfProvided (self st)
          (["upgrade"; "--install"; chart; ociURI; "--version"; version]
           ++ (if skipCRDs then ["--skip-crds"] else [])
           ++ flat_map (λ value, ["--set"; value]) values
           ++ (if bool_decide (kubeconfigFilePath = "") then []
               else ["--kubeconfig"; kubeconfigFilePath])
           ++ (if bool_decide (namespace = "") then []
               else ["--create-namespace"; "--namespace"; namespace])
           ++ (if bool_decide (valueFilePath = "") then []
               else ["-f"; valueFilePath]))
    ∧ (kubeconfigFilePath = "" →
       "--kubeconfig" ∉ chart :: ociURI :: version :: namespace :: valueFilePath :: values →
       "--kubeconfig" ∉ args cmd).
Proof.
  eexists. split; [apply InstallChart_commands|]. split; [reflexivity|].
  intros -> Hnot Hin. apply Hnot. clear Hnot.
  cbn [args WithEnvVars newCommand] in Hin.
  rewrite bool_decide_true in Hin by done.
  unfold addInsecureFlagIfProvided, insecureSkipVerifyFlag in Hin.
  rewrite <- GetHelmValueArgs_flat in Hin.
  destruct (insecure (self st)), skipCRDs; repeat case_bool_decide;
    split_elem Hin; subst; rewrite !elem_of_cons; tauto.
Qed.

Lemma InstallChart_optional_arguments_witness :
  ∃ cmd,
    commands_of (InstallChart (C := sample) tt "r" "public.ecr.aws/x" "1.0" "" "ns" ""
                   false ["a=1"])
      {| self := NewHelm (answering "" None) []; trace := [] |} = [cmd]
    ∧ "--kubeconfig" ∉ args cmd.
Proof.
  destruct (InstallChart_optional_arguments (C := sample) tt "r" "public.ecr.aws/x" "1.0"
              "" "ns" "" false ["a=1"]
              {| self := NewHelm (answering "" None) []; trace := [] |})
    as (cmd & Hcmd & _ & Hnot).
  exists cmd. split; [exact Hcmd|].
  apply Hnot; [reflexivity|]. apply (bool_decide_unpack _). by vm_compute.
Defined.

(** ** Operations that coincide *)

(** X10: with a kube-config path that is not empty, InstallChart given no
    namespace, no values file, no inline value and CRDs kept is
    InstallChartFromName: same command, same result, same state.  With an
    empty path they part: InstallChartFromName still passes --kubeconfig
    followed by the empty string, InstallChart passes neither. *)
Theorem InstallChart_is_InstallChartFromName `{C : Collaborators} (c : context_Context)
    (ociURI kubeConfig name version : string) (st : State) :
  (kubeConfig ≠ "" →
   InstallChart c name ociURI version kubeConfig "" "" false [] st
   = InstallChartFromName c ociURI kubeConfig name version st)
  ∧ args <$> commands_of (InstallChartFromName c ociURI "" name version) st
    = [addInsecureFlagIfProvided (self st)
         ["upgrade"; "--install"; name; ociURI; "--version"; version; "--kubeconfig"; ""]]
  ∧ args <$> commands_of (InstallChart c name ociURI version "" "" "" false []) st
    = [addInsecureFlagIfProvided (self st)
         ["upgrade"; "--install"; name; ociURI; "--version"; version]].
Proof.
  split; [|split].
  - intros Hne. unfold InstallChart, InstallChartFromName, bind, this, Run, ret.
    rewrite (bool_decide_true (kubeConfig ≠ "")) by done. reflexivity.
  - run_op; reflexivity.
  - run_op; reflexivity.
Qed.

Lemma InstallChart_is_InstallChartFromName_witness :
  let st := {| self := NewHelm (C := sample) (answering "" None) []; trace := [] |} in
  InstallChart (C := sample) tt "r" "public.ecr.aws/x" "1.0" "kubeconfig" "" "" false [] st
  = InstallChartFromName (C := sample) tt "public.ecr.aws/x" "kubeconfig" "r" "1.0" st.
Proof.
  intros st.
  apply (proj1 (InstallChart_is_InstallChartFromName (C := sample) tt "public.ecr.aws/x"
                  "kubeconfig" "r" "1.0" st)).
  discriminate.
Defined.

(** X11: UpgradeChartWithValuesFile given options is the same as applying
    the options to the receiver and upgrading with none; and with no
    option its argument list is that of InstallChartWithValuesFile with
    --install taken out, for the same context and environment. *)
Theorem UpgradeChartWithValuesFile_composes `{C : Collaborators} (c : context_Context)
    (chart ociURI version kubeconfigFilePath valuesFilePath : string)
    (opts : list HelmOpt) (st : State) :
  UpgradeChartWithValuesFile c chart ociURI version kubeconfigFilePath valuesFilePath opts st
  = UpgradeChartWithValuesFile c chart ociURI version kubeconfigFilePath valuesFilePath []
      {| self := foldl (λ h o, o h) (self st) opts; trace := trace st |}
  ∧ ∃ cmd rest,
      commands_of (InstallChartWithValuesFile c chart ociURI version kubeconfigFilePath
                     valuesFilePath) st = [cmd]
      ∧ args cmd = "upgrade" :: "--install" :: rest
      ∧ commands_of (UpgradeChartWithValuesFile c chart ociURI version kubeconfigFilePath
                       valuesFilePath []) st
        = [ {| ctx := ctx cmd; args := "upgrade" :: rest; stdIn := stdIn cmd;
               envVars := envVars cmd |} ].
Proof.
  split.
  - unfold UpgradeChartWithValuesFile, bind. by rewrite !applyAll_run.
  - eexists.
    exists (addInsecureFlagIfProvided (self st)
              [chart; ociURI; "--version"; version; "--values"; valuesFilePath;
               "--kubeconfig"; kubeconfigFilePath; "--wait"]).
    split; [run_op; reflexivity|]. split; [by_flag|].
    unfold commands_of, UpgradeChartWithValuesFile, bind. rewrite applyAll_run.
    cbn [foldl].
    run_op; cbn [ctx args stdIn envVars WithEnvVars newCommand];
      unfold addInsecureFlagIfProvided; destruct (insecure (self st)); reflexivity.
Qed.

(** ** The names ListCharts returns *)

Lemma split_on_newlines_clean (s : string) :
  Forall (λ seg, has_newline seg = false) (split_on_newlines s).
Proof.
  induction s as [|a s IH]; simpl.
  - by repeat constructor.
  - case_bool_decide as Ha; [by constructor|].
    destruct (split_on_newlines s) as [|seg segs].
    + repeat constructor. simpl. by rewrite bool_decide_false.
    + inversion IH as [|? ? Hseg Hsegs]; subst. constructor; [|done].
      simpl. by rewrite bool_decide_false.
Qed.

(** X12: no name returned by ListCharts is empty and none has a newline in
    it, whatever the runner answered. *)
Theorem ListCharts_names_clean `{C : Collaborators}
    (c : context_Context) (kubeconfigFilePath : string) (st : State) :
  Forall (λ name, name ≠ "" ∧ has_newline name = false)
         (result_of (ListCharts c kubeconfigFilePath) st).1.
Proof.
  unfold_op. destruct (executable _ _ _) as [out [err|]]; cbn [fst]; [by constructor|].
  rewrite FieldsFunc_newline. unfold nonempty_lines.
  apply Forall_forall. intros name Hin.
  apply list_elem_of_filter in Hin as [Hne Hin]. split; [exact Hne|].
  by apply (proj1 (Forall_forall _ _) (split_on_newlines_clean out)).
Qed.

Lemma fieldsLoop_line (name rest w : string) :
  has_newline name = false →
  fieldsLoop (λ a, bool_decide (a = newline)) (name +:+ String newline rest) (Some w)
  = (w +:+ name) :: fieldsLoop (λ a, bool_decide (a = newline)) rest None.
Proof.
  revert w. induction name as [|a name IH]; intros w Hclean.
  - change ("" +:+ String newline rest) with (String newline rest).
    cbn [fieldsLoop]. rewrite bool_decide_true by done.
    by rewrite append_empty_r.
  - cbn [has_newline] in Hclean. apply orb_false_iff in Hclean as [Ha Hname].
    change (String a name +:+ String newline rest)
      with (String a (name +:+ String newline rest)).
    cbn [fieldsLoop]. rewrite Ha. rewrite (IH _ Hname).
    by rewrite append_char_assoc.
Qed.

(** X13: an output that lists names one per line, each name not empty and
    without a newline, is read back by ListCharts as exactly those names, in
    order. *)
Theorem ListCharts_one_per_line `{C : Collaborators}
    (c : context_Context) (kubeconfigFilePath : string) (names : list string)
    (mirror : option RegistryMirror) (e : gmap string string) (flag : bool)
    (tr : list Command) :
  Forall (λ name, name ≠ "" ∧ has_newline name = false) names →
  result_of (ListCharts c kubeconfigFilePath)
    {| self := {| executable := answering (one_per_line names) None;
                  registryMirror := mirror; env := e; insecure := flag |};
       trace := tr |}
  = (names, None).
Proof.
  intros Hnames. unfold_op. unfold answering. cbn [fst executable]. f_equal.
  unfold FieldsFunc.
  induction Hnames as [|name names [Hne Hclean] _ IH]; [reflexivity|].
  cbn [one_per_line]. destruct name as [|a name]; [done|].
  cbn [has_newline] in Hclean. apply orb_false_iff in Hclean as [Ha Hname].
  change (String a name +:+ String newline (one_per_line names))
    with (String a (name +:+ String newline (one_per_line names))).
  cbn [fieldsLoop]. rewrite Ha. rewrite (fieldsLoop_line _ _ _ Hname).
  by rewrite IH.
Qed.

Lemma ListCharts_one_per_line_witness :
  result_of (ListCharts (C := sample) tt "kubeconfig")
    {| self := {| executable := answering (one_per_line ["cilium"; "eks-anywhere-packages"])
                                  None;
                  registryMirror := None; env := ∅; insecure := false |};
       trace := [] |}
  = (["cilium"; "eks-anywhere-packages"], None).
Proof.
  apply (ListCharts_one_per_line (C := sample) tt "kubeconfig"
           ["cilium"; "eks-anywhere-packages"] None ∅ false []).
  repeat constructor; discriminate.
Defined.

(** ** Merging environments *)

(** X14: WithEnv applied twice with the same map changes nothing more;
    two WithEnv options amount to one with the second map merged over the
    first; and the order of two WithEnv options does not matter when their
    maps share no key. *)
Theorem WithEnv_algebra `{C : Collaborators} (e1 e2 : gmap string string) (h : Helm) :
  WithEnv e1 (WithEnv e1 h) = WithEnv e1 h
  ∧ WithEnv e2 (WithEnv e1 h) = WithEnv (e2 ∪ e1) h
  ∧ (e1 ##ₘ e2 → WithEnv e2 (WithEnv e1 h) = WithEnv e1 (WithEnv e2 h)).
Proof.
  unfold WithEnv. cbn [executable registryMirror env insecure].
  rewrite !merge_entries. split; [|split].
  - by rewrite (assoc_L (∪)), (idemp_L (∪)).
  - by rewrite (assoc_L (∪)).
  - intros Hdisj. by rewrite !(assoc_L (∪)), (map_union_comm e1 e2).
Qed.

Lemma WithEnv_algebra_witness :
  let h := NewHelm (C := sample) (answering "" None) [] in
  WithEnv {[ "HTTPS_PROXY" := "proxy.local" ]} (WithEnv {[ "HELM_DEBUG" := "1" ]} h)
  = WithEnv {[ "HELM_DEBUG" := "1" ]} (WithEnv {[ "HTTPS_PROXY" := "proxy.local" ]} h).
Proof.
  intros h.
  apply (proj2 (proj2 (WithEnv_algebra (C := sample) {[ "HELM_DEBUG" := "1" ]}
                         {[ "HTTPS_PROXY" := "proxy.local" ]} h))).
  apply map_disjoint_singleton_l. by vm_compute.
Defined.
